(** * Ride2Online_Event: the event routes and the connection registry

    A shallow embedding of [app/api/routes/events.py]: the five HTTP
    handlers over the event repository and the WebSocket session loop over
    the connection manager.  Awaited calls are sequenced in a state and
    exception monad; every call a handler makes on a collaborator is
    recorded, in order, next to the collaborator's state. *)

From stdpp Require Import gmap strings list.
From Stdlib Require Import Ascii DecimalString DecimalPos DecimalZ.

(** ** Python-level values *)

(** [fastapi.status]: the three-digit codes the routes use. *)
Module status.
Definition HTTP_200_OK : Z := 200%Z.
Definition HTTP_400_BAD_REQUEST : Z := 400%Z.
Definition HTTP_404_NOT_FOUND : Z := 404%Z.
Definition HTTP_409_CONFLICT : Z := 409%Z.
Definition HTTP_500_INTERNAL_SERVER_ERROR : Z := 500%Z.
End status.

(** [app.resources.strings] is not part of the sources at hand: a message is
    identified by the name of the constant the handler passes as [detail]. *)
Module strings.
Inductive message : Set :=
| EVENT_IS_EXISTS
| EVENT_CREATE_ERROR
| EVENT_DOES_NOT_EXIST.

#[global] Instance message_eq_dec : EqDecision message.
Proof. solve_decision. Defined.
End strings.

(** The exceptions that cross the handlers. *)
Inductive exn : Type :=
| HTTPException (status_code : Z) (detail : strings.message)
| WebSocketDisconnect
| OtherException (name : string).

#[global] Instance exn_eq_dec : EqDecision exn.
Proof. solve_decision. Defined.

(** What running a piece of code yields: a value, or a raised exception. *)
Inductive outcome (A : Type) : Type :=
| Returned (a : A)
| Raised (e : exn).
Arguments Returned {A} a.
Arguments Raised {A} e.

(** ** The monad of awaited calls

    A computation runs in a world [W] (the collaborator's state and the log
    of calls made on it) and either returns or raises. *)
Definition M (W A : Type) : Type := W → outcome A * W.

Definition ret {W A} (a : A) : M W A := λ w, (Returned a, w).

Definition raise {W A} (e : exn) : M W A := λ w, (Raised e, w).

Definition bind {W A B} (m : M W A) (k : A → M W B) : M W B :=
  λ w, match m w with
       | (Returned a, w') => k a w'
       | (Raised e, w') => (Raised e, w')
       end.

#[global] Instance M_ret W : MRet (M W) := λ A, @ret W A.
#[global] Instance M_bind W : MBind (M W) := λ A B k m, @bind W A B m k.

(** [try: body except WebSocketDisconnect: handler]; any other exception
    leaves the [try] statement unhandled. *)
Definition try_except_WebSocketDisconnect {W A}
    (body handler : M W A) : M W A :=
  λ w, match body w with
       | (Raised WebSocketDisconnect, w') => handler w'
       | r => r
       end.

(** A collaborator's state together with the calls made on it so far. *)
Record World (S C : Type) : Type := mkWorld { state : S; calls : list C }.
Arguments mkWorld {S C} state calls.
Arguments state {S C} w.
Arguments calls {S C} w.

(** ** Request, response and domain schemas

    [app.models] is not part of the sources at hand.  A request body is its
    [title] and the remaining entries of [request.__dict__]. *)
Record User : Type := mkUser { user_id : Z }.

Record EventCreate : Type :=
  mkEventCreate { create_title : string; create_rest : list (string * string) }.

Record EventUpdate : Type :=
  mkEventUpdate { update_title : string; update_rest : list (string * string) }.

Record EventsFilter : Type := mkEventsFilter { limit : Z; offset : Z }.

Class Titled (Req : Type) : Type := title : Req → string.
#[global] Instance EventCreate_titled : Titled EventCreate := create_title.
#[global] Instance EventUpdate_titled : Titled EventUpdate := update_title.

Inductive Payload (Event : Type) : Type :=
| EventResponse (event : Event)
| EventsResponse (events : list Event).
Arguments EventResponse {Event} event.
Arguments EventsResponse {Event} events.

(** [WrapperResponse()] carries no payload. *)
Record WrapperResponse (Event : Type) : Type :=
  mkWrapperResponse { payload : option (Payload Event) }.
Arguments mkWrapperResponse {Event} payload.
Arguments payload {Event} w.

(** ** The event repository

    [EventRepository] is an external collaborator: the handlers only rely on
    its interface.  A query reads the store and answers with a record or
    with [None]; a command also yields the store it leaves behind.  A
    method stands for the answer of a call that returns: a repository call
    that raises is outside this interface, and what is proved of a handler
    is proved of the requests whose repository calls return. *)
Class EventRepository (Event R : Type) : Type := {
  repo_get_event_by_title : R → string → option Event;
  repo_get_event_by_id : R → Z → option Event;
  repo_get_events : R → Z → Z → list Event;
  repo_create_event_by_user_id : R → Z → EventCreate → option Event * R;
  repo_update_event_by_id : R → Z → Z → EventUpdate → option Event * R;
  repo_delete_event_by_id : R → Z → Z → R
}.

(** The calls a handler can make on the repository. *)
Inductive RepoCall : Type :=
| Call_get_event_by_title (t : string)
| Call_get_event_by_id (event_id : Z)
| Call_get_events (lim off : Z)
| Call_create_event_by_user_id (uid : Z) (request : EventCreate)
| Call_update_event_by_id (uid event_id : Z) (request : EventUpdate)
| Call_delete_event_by_id (uid event_id : Z).

Definition is_create_call (c : RepoCall) : bool :=
  match c with Call_create_event_by_user_id _ _ => true | _ => false end.

Definition is_update_call (c : RepoCall) : bool :=
  match c with Call_update_event_by_id _ _ _ => true | _ => false end.

Definition is_delete_call (c : RepoCall) : bool :=
  match c with Call_delete_event_by_id _ _ => true | _ => false end.

(** [await event_repository.<method>(...)]: the call is logged, then
    answered by the repository. *)
Module event_repository.
Section Methods.
Context {Event R : Type} `{!EventRepository Event R}.

Definition query {A} (c : RepoCall) (f : R → A) : M (World R RepoCall) A :=
  λ w, (Returned (f (state w)), mkWorld (state w) (calls w ++ [c])).

Definition command {A} (c : RepoCall) (f : R → A * R)
    : M (World R RepoCall) A :=
  λ w, let '(a, r) := f (state w) in
       (Returned a, mkWorld r (calls w ++ [c])).

Definition get_event_by_title (t : string)
    : M (World R RepoCall) (option Event) :=
  query (Call_get_event_by_title t) (λ r, repo_get_event_by_title r t).

Definition get_event_by_id (event_id : Z)
    : M (World R RepoCall) (option Event) :=
  query (Call_get_event_by_id event_id)
        (λ r, repo_get_event_by_id r event_id).

Definition get_events (lim off : Z) : M (World R RepoCall) (list Event) :=
  query (Call_get_events lim off) (λ r, repo_get_events r lim off).

Definition create_event_by_user_id (uid : Z) (request : EventCreate)
    : M (World R RepoCall) (option Event) :=
  command (Call_create_event_by_user_id uid request)
          (λ r, repo_create_event_by_user_id r uid request).

Definition update_event_by_id (uid event_id : Z) (request : EventUpdate)
    : M (World R RepoCall) (option Event) :=
  command (Call_update_event_by_id uid event_id request)
          (λ r, repo_update_event_by_id r uid event_id request).

Definition delete_event_by_id (uid event_id : Z)
    : M (World R RepoCall) unit :=
  command (Call_delete_event_by_id uid event_id)
          (λ r, (tt, repo_delete_event_by_id r uid event_id)).
End Methods.
End event_repository.

(** ** The HTTP handlers of [app/api/routes/events.py]

    Python's [if x:] on a repository answer is a test for a record: [None]
    is the only falsy answer. *)
Section Handlers.
Context {Event R : Type} `{!EventRepository Event R}.

Abbreviation Handler := (M (World R RepoCall) (WrapperResponse Event)).

(** [POST /events] *)
Definition create_event (request : EventCreate) (user : User) : Handler :=
  existing ← event_repository.get_event_by_title (title request);
  if existing is Some _ then
    raise (HTTPException status.HTTP_409_CONFLICT strings.EVENT_IS_EXISTS)
  else
    event ← event_repository.create_event_by_user_id (user_id user) request;
    match event with
    | None =>
        raise (HTTPException status.HTTP_400_BAD_REQUEST
                             strings.EVENT_CREATE_ERROR)
    | Some event =>
        mret (mkWrapperResponse (Some (EventResponse event)))
    end.

(** [GET /events] *)
Definition get_events_by_filter (events_filter : EventsFilter) : Handler :=
  events ← event_repository.get_events (limit events_filter)
                                       (offset events_filter);
  mret (mkWrapperResponse (Some (EventsResponse events))).

(** [GET /events/{event_id}] *)
Definition get_event_by_id (event_id : Z) (user : User) : Handler :=
  event ← event_repository.get_event_by_id event_id;
  match event with
  | None =>
      raise (HTTPException status.HTTP_404_NOT_FOUND
                           strings.EVENT_DOES_NOT_EXIST)
  | Some event => mret (mkWrapperResponse (Some (EventResponse event)))
  end.

(** [PATCH /events/{event_id}] *)
Definition update_event_by_id (request : EventUpdate) (event_id : Z)
    (user : User) : Handler :=
  existing ← event_repository.get_event_by_title (title request);
  if existing is Some _ then
    raise (HTTPException status.HTTP_409_CONFLICT strings.EVENT_IS_EXISTS)
  else
    target ← event_repository.get_event_by_id event_id;
    if target is None then
      raise (HTTPException status.HTTP_404_NOT_FOUND
                           strings.EVENT_DOES_NOT_EXIST)
    else
      event ← event_repository.update_event_by_id (user_id user) event_id
                                                  request;
      match event with
      | None =>
          raise (HTTPException status.HTTP_400_BAD_REQUEST
                               strings.EVENT_CREATE_ERROR)
      | Some event =>
          mret (mkWrapperResponse (Some (EventResponse event)))
      end.

(** [DELETE /events/{event_id}] *)
Definition delete_event_by_id (event_id : Z) (user : User) : Handler :=
  target ← event_repository.get_event_by_id event_id;
  if target is None then
    raise (HTTPException status.HTTP_409_CONFLICT
                         strings.EVENT_DOES_NOT_EXIST)
  else
    event_repository.delete_event_by_id (user_id user) event_id;;
    mret (mkWrapperResponse None).

(** The status line the framework sends for a route declared with
    [status_code=status.HTTP_200_OK]: that code when the handler returns,
    the exception's own code for an [HTTPException]. *)
Definition http_status {A} (o : outcome A) : Z :=
  match o with
  | Returned _ => status.HTTP_200_OK
  | Raised (HTTPException code _) => code
  | Raised _ => status.HTTP_500_INTERNAL_SERVER_ERROR
  end.
End Handlers.

(** ** The connection manager

    [ConnectionManager] is an external collaborator of the session loop: a
    method runs on the manager's state and returns or raises. *)
Abbreviation WebSocket := nat.

Class ConnectionManager (St : Type) : Type := {
  mgr_connect : WebSocket → St → outcome unit * St;
  mgr_disconnect : WebSocket → St → outcome unit * St;
  mgr_send_personal_message : string → WebSocket → St → outcome unit * St;
  mgr_broadcast : string → St → outcome unit * St
}.

(** The calls the session loop can make on the manager. *)
Inductive ManagerCall : Type :=
| Call_connect (websocket : WebSocket)
| Call_disconnect (websocket : WebSocket)
| Call_send_personal_message (message : string) (websocket : WebSocket)
| Call_broadcast (message : string).

#[global] Instance ManagerCall_eq_dec : EqDecision ManagerCall.
Proof. solve_decision. Defined.


(** [manager.<method>(...)]: the call is logged, then run by the manager. *)
Module manager.
Section Methods.
Context {St : Type} `{!ConnectionManager St}.

Definition call (c : ManagerCall) (f : St → outcome unit * St)
    : M (World St ManagerCall) unit :=
  λ w, let '(o, s) := f (state w) in (o, mkWorld s (calls w ++ [c])).

Definition connect (websocket : WebSocket) : M (World St ManagerCall) unit :=
  call (Call_connect websocket) (mgr_connect websocket).

Definition disconnect (websocket : WebSocket)
    : M (World St ManagerCall) unit :=
  call (Call_disconnect websocket) (mgr_disconnect websocket).

Definition send_personal_message (message : string) (websocket : WebSocket)
    : M (World St ManagerCall) unit :=
  call (Call_send_personal_message message websocket)
       (mgr_send_personal_message message websocket).

Definition broadcast (message : string) : M (World St ManagerCall) unit :=
  call (Call_broadcast message) (mgr_broadcast message).
End Methods.
End manager.

(** ** The WebSocket session of [app/api/routes/events.py] *)

(** [str(n)] for a Python [int]. *)
Definition str_int (n : Z) : string := NilZero.string_of_int (Z.to_int n).

(** The three f-strings of the session; [data] stands for the text that
    [{data}] interpolates. *)
Definition you_wrote (data : string) : string := "You wrote: " +:+ data.

Definition client_says (user : User) (data : string) : string :=
  "Client #" +:+ str_int (user_id user) +:+ " says: " +:+ data.

Definition client_left (user : User) : string :=
  "Client #" +:+ str_int (user_id user) +:+ " left the chat".

(** What one [await websocket.receive_json()] does: it yields the decoded
    payload or raises. *)
Inductive Received : Type :=
| Json (data : string)
| Raises (e : exn).

(** Where a session stands when it stops running: suspended in
    [receive_json] with nothing more to read, or returned. *)
Inductive Session : Type :=
| Receiving
| Closed.

Section Session.
Context {St : Type} `{!ConnectionManager St}.

(** [while True:] of lines 120-123, driven by what the transport delivers. *)
Fixpoint receive_loop (websocket : WebSocket) (user : User)
    (inbox : list Received) : M (World St ManagerCall) Session :=
  match inbox with
  | [] => mret Receiving
  | Raises e :: _ => raise e
  | Json data :: inbox' =>
      manager.send_personal_message (you_wrote data) websocket;;
      manager.broadcast (client_says user data);;
      receive_loop websocket user inbox'
  end.

(** The [except WebSocketDisconnect:] suite of lines 125-126. *)
Definition on_disconnect (websocket : WebSocket) (user : User)
    : M (World St ManagerCall) Session :=
  manager.disconnect websocket;;
  manager.broadcast (client_left user);;
  mret Closed.

(** The [try] statement of lines 119-126. *)
Definition session (websocket : WebSocket) (user : User)
    (inbox : list Received) : M (World St ManagerCall) Session :=
  try_except_WebSocketDisconnect (receive_loop websocket user inbox)
                                 (on_disconnect websocket user).

(** The whole handler: register, then serve.  The [logger.info] line is
    left out: nothing in the handler reads the log. *)
Definition websocket_events (websocket : WebSocket) (user : User)
    (inbox : list Received) : M (World St ManagerCall) Session :=
  manager.connect websocket;;
  session websocket user inbox.
End Session.

(** The calls the [while] loop makes for one received payload. *)
Definition loop_call (websocket : WebSocket) (user : User)
    (c : ManagerCall) : Prop :=
  ∃ data, c = Call_send_personal_message (you_wrote data) websocket
          ∨ c = Call_broadcast (client_says user data).

(** World [w'] is world [w] after some further calls, all of kind [P]. *)
Definition extends_by {S C : Type} (P : C → Prop) (w w' : World S C) : Prop :=
  ∃ new, calls w' = calls w ++ new ∧ Forall P new.




(** ** The connection registry *)

(** Modelled from the spec: the connection registry
    ([app/manager/connection_manager.py] is not among the sources).  It is a
    mutable set of connections; [delivered] lists, oldest first, the
    messages that reached a client. *)
Record Registry : Type := mkRegistry {
  active_connections : gset WebSocket;
  delivered : list (WebSocket * string)
}.

(** Modelled from the spec: the registry created at start-up, with no
    connection in it. *)
Definition empty_registry : Registry := mkRegistry ∅ [].

(** Modelled from the spec: [register(connection)] adds the connection to
    the active set; on a connection already there it changes nothing. *)
Definition register (c : WebSocket) (r : Registry) : Registry :=
  mkRegistry ({[c]} ∪ active_connections r) (delivered r).

(** Modelled from the spec: [deregister(connection)] removes the connection
    from the active set if it is there, and is no error otherwise. *)
Definition deregister (c : WebSocket) (r : Registry) : Registry :=
  mkRegistry (active_connections r ∖ {[c]}) (delivered r).

(** Modelled from the spec: the result of [send_to]. *)
Inductive Result : Type :=
| Ok
| DeliveryError.

Section Registry.
(** Which transports still accept a message, and whether the registry drops
    a connection it finds broken (the spec leaves that policy open). *)
Variable usable : WebSocket → bool.
Variable prune_broken : bool.

(** Modelled from the spec: [send_to(connection, message)] delivers to that
    one connection, or fails with [DeliveryError] when its transport is no
    longer usable; the failure is reported, never raised. *)
Definition send_to (c : WebSocket) (m : string) (r : Registry)
    : Result * Registry :=
  if usable c then
    (Ok, mkRegistry (active_connections r) (delivered r ++ [(c, m)]))
  else
    (DeliveryError, if prune_broken then deregister c r else r).

(** Modelled from the spec: [broadcast(message)] takes a snapshot of the
    membership, then sends to each member of the snapshot in turn; a failed
    delivery is swallowed and the pass goes on. *)
Definition broadcast (m : string) (r : Registry) : Registry :=
  let snapshot := elements (active_connections r) in
  foldl (λ acc c, (send_to c m acc).2) r snapshot.

(** Modelled from the spec: the registry behind the manager's interface
    ([connect] registers, [disconnect] deregisters); no method raises. *)
#[local] Instance registry_manager : ConnectionManager Registry := {
  mgr_connect websocket r := (Returned tt, register websocket r);
  mgr_disconnect websocket r := (Returned tt, deregister websocket r);
  mgr_send_personal_message message websocket r :=
    (Returned tt, (send_to websocket message r).2);
  mgr_broadcast message r := (Returned tt, broadcast message r)
}.
End Registry.

(** A replayed call on the registry. *)
Inductive RegistryCall : Type :=
| Register (c : WebSocket)
| Deregister (c : WebSocket).

#[global] Instance RegistryCall_eq_dec : EqDecision RegistryCall.
Proof. solve_decision. Defined.

Definition subject (k : RegistryCall) : WebSocket :=
  match k with Register c | Deregister c => c end.

Definition apply_call (r : Registry) (k : RegistryCall) : Registry :=
  match k with
  | Register c => register c r
  | Deregister c => deregister c r
  end.

Definition replay (calls : list RegistryCall) (r : Registry) : Registry :=
  foldl apply_call r calls.






(** How often message [m] was delivered to [c], in a list of deliveries. *)
Definition deliveries (c : WebSocket) (m : string)
    (log : list (WebSocket * string)) : nat :=
  length (filter (λ d, d = (c, m)) log).

(** The deliveries made while the registry went from [before] to [after]. *)
Definition delivered_since (before after : Registry)
    : list (WebSocket * string) :=
  drop (length (delivered before)) (delivered after).

(** ** An in-memory event repository *)

(** Modelled from the spec: an event record, as far as the handlers'
    collaborator needs one ([app/models/domain] is not among the sources). *)
Record EventRow : Type := mkEventRow {
  row_id : Z;
  row_title : string;
  row_owner : Z
}.

(** Modelled from the spec: the event repository
    ([app/database/repositories/event_repository.py] is not among the
    sources) as a list of rows, to run the handlers on concrete stores.
    Look-ups by title and id answer with a row or with [None]; [create]
    appends a row; [update] retitles the row with the given id; [delete]
    drops it.  The spec does not say when a create yields no record: this
    store does so for an empty title. *)
#[global] Instance list_repository : EventRepository EventRow (list EventRow) := {
  repo_get_event_by_title rows t :=
    List.find (λ e, bool_decide (row_title e = t)) rows;
  repo_get_event_by_id rows i :=
    List.find (λ e, bool_decide (row_id e = i)) rows;
  repo_get_events rows lim off :=
    take (Z.to_nat lim) (drop (Z.to_nat off) rows);
  repo_create_event_by_user_id rows uid request :=
    if bool_decide (title request = EmptyString) then (None, rows)
    else
      let e := mkEventRow (Z.of_nat (length rows) + 1) (title request) uid in
      (Some e, rows ++ [e]);
  repo_update_event_by_id rows uid i request :=
    match List.find (λ e, bool_decide (row_id e = i)) rows with
    | None => (None, rows)
    | Some e =>
        let e' := mkEventRow i (title request) (row_owner e) in
        (Some e',
         (λ x, if bool_decide (row_id x = i) then e' else x) <$> rows)
    end;
  repo_delete_event_by_id rows uid i :=
    filter (λ e, row_id e ≠ i) rows
}.

(** A store with one event, and a world with that store and no call yet. *)
Definition sample_rows : list EventRow := [mkEventRow 1 "Sunday ride" 7].

Definition sample_world : World (list EventRow) RepoCall :=
  mkWorld sample_rows [].

(** ** Vocabulary for the further properties *)

(** A command may change the store; a query only reads it. *)
Definition is_command (c : RepoCall) : bool :=
  match c with
  | Call_create_event_by_user_id _ _
  | Call_update_event_by_id _ _ _
  | Call_delete_event_by_id _ _ => true
  | _ => false
  end.

(** The calls made while the world went from [w] to [w']. *)
Definition new_calls {S C : Type} (w w' : World S C) : list C :=
  drop (length (calls w)) (calls w').

(** Some queries, then at most one command, which comes last. *)
Definition queries_then_command (new : list RepoCall) : Prop :=
  ∃ queries command,
    new = queries ++ command
    ∧ Forall (λ c, is_command c = false) queries
    ∧ (command = [] ∨ ∃ c, command = [c] ∧ is_command c = true).

(** A manager method that returns whatever the state it runs on. *)
Definition returns_normally {St : Type} (f : St → outcome unit * St) : Prop :=
  ∀ s, (f s).1 = Returned tt.

(** The calls the loop makes for payloads [datas], in order. *)
Definition echo_and_broadcast (websocket : WebSocket) (user : User)
    (datas : list string) : list ManagerCall :=
  flat_map (λ data, [Call_send_personal_message (you_wrote data) websocket;
                     Call_broadcast (client_says user data)]) datas.

(** Whether a text contains a blank. *)
Fixpoint has_space (s : string) : bool :=
  match s with
  | EmptyString => false
  | String a s' => bool_decide (a = " "%char) || has_space s'
  end.

(** A manager that raises as scripted, to run the session on: a method
    raises the exception the script gives for the call, if any, and returns
    otherwise.  It keeps no state. *)
Definition scripted (script : ManagerCall → option exn) (c : ManagerCall)
    (s : unit) : outcome unit * unit :=
  (match script c with Some e => Raised e | None => Returned tt end, s).

Definition scripted_manager (script : ManagerCall → option exn)
    : ConnectionManager unit := {|
  mgr_connect websocket := scripted script (Call_connect websocket);
  mgr_disconnect websocket := scripted script (Call_disconnect websocket);
  mgr_send_personal_message message websocket :=
    scripted script (Call_send_personal_message message websocket);
  mgr_broadcast message := scripted script (Call_broadcast message)
|}.

(** * Properties of the HTTP handlers *)

Section HandlerFacts.
Context {Event R : Type} `{!EventRepository Event R}.
Implicit Types (w : World R RepoCall) (user : User).

Ltac run_handler :=
  unfold create_event, get_event_by_id, update_event_by_id,
    delete_event_by_id;
  unfold event_repository.get_event_by_title,
    event_repository.get_event_by_id,
    event_repository.create_event_by_user_id,
    event_repository.update_event_by_id,
    event_repository.delete_event_by_id,
    event_repository.query, event_repository.command;
  unfold mbind, mret, M_bind, M_ret, bind, ret, raise; simpl.

(** C4.  [create_event]: when the request's title is that of an existing
    event the handler raises a 409 conflict, the only call it made is the
    look-up by title, so that no create call was added and the store is
    the one it started from; when no event has the title and the create
    call answers with no record, it raises a 400 with the fixed message
    [EVENT_CREATE_ERROR]. *)
Theorem create_event_conflict_or_failure (request : EventCreate) user w :
  (∀ e, repo_get_event_by_title (state w) (title request) = Some e →
     create_event request user w =
       (Raised (HTTPException 409 strings.EVENT_IS_EXISTS),
        mkWorld (state w) (calls w ++ [Call_get_event_by_title (title request)]))
     ∧ (∀ c, c ∈ calls (create_event request user w).2 →
             is_create_call c = true → c ∈ calls w)
     ∧ state (create_event request user w).2 = state w)
  ∧ (∀ r', repo_get_event_by_title (state w) (title request) = None →
       repo_create_event_by_user_id (state w) (user_id user) request
         = (None, r') →
       create_event request user w =
         (Raised (HTTPException 400 strings.EVENT_CREATE_ERROR),
          mkWorld r' (calls w ++ [Call_get_event_by_title (title request);
                                  Call_create_event_by_user_id (user_id user)
                                                               request]))).
Proof.
  split.
  - intros e He.
    assert (Hrun : create_event request user w =
      (Raised (HTTPException 409 strings.EVENT_IS_EXISTS),
       mkWorld (state w)
               (calls w ++ [Call_get_event_by_title (title request)]))).
    { run_handler. by rewrite He. }
    rewrite Hrun. split_and!; [done| |done].
    simpl. intros c [Hc|Hc]%elem_of_app Hcreate; [done|].
    apply list_elem_of_singleton in Hc. by subst c.
  - intros r' Hnone Hcreate. run_handler. rewrite Hnone. simpl.
    rewrite Hcreate. simpl. by rewrite <- app_assoc.
Qed.

(** C5.  [delete_event_by_id]: when the look-up by id answers with no
    record the handler raises a 409 conflict with [EVENT_DOES_NOT_EXIST]
    and adds no delete call, the store staying as it was; when it answers
    with a record the handler calls delete for that user and id and returns
    the empty wrapper, a 200 response. *)
Theorem delete_event_by_id_missing_or_deleted (event_id : Z) user w :
  (repo_get_event_by_id (state w) event_id = None →
     delete_event_by_id event_id user w =
       (Raised (HTTPException 409 strings.EVENT_DOES_NOT_EXIST),
        mkWorld (state w) (calls w ++ [Call_get_event_by_id event_id]))
     ∧ (∀ c, c ∈ calls (delete_event_by_id event_id user w).2 →
             is_delete_call c = true → c ∈ calls w))
  ∧ (∀ e, repo_get_event_by_id (state w) event_id = Some e →
       delete_event_by_id event_id user w =
         (Returned (mkWrapperResponse None),
          mkWorld (repo_delete_event_by_id (state w) (user_id user) event_id)
                  (calls w ++ [Call_get_event_by_id event_id;
                               Call_delete_event_by_id (user_id user)
                                                       event_id]))
       ∧ http_status (delete_event_by_id event_id user w).1 = 200%Z).
Proof.
  split.
  - intros Hnone.
    assert (Hrun : delete_event_by_id event_id user w =
      (Raised (HTTPException 409 strings.EVENT_DOES_NOT_EXIST),
       mkWorld (state w) (calls w ++ [Call_get_event_by_id event_id]))).
    { run_handler. by rewrite Hnone. }
    rewrite Hrun. split; [done|].
    simpl. intros c [Hc|Hc]%elem_of_app Hdelete; [done|].
    apply list_elem_of_singleton in Hc. by subst c.
  - intros e He.
    assert (Hrun : delete_event_by_id event_id user w =
      (Returned (mkWrapperResponse None),
       mkWorld (repo_delete_event_by_id (state w) (user_id user) event_id)
               (calls w ++ [Call_get_event_by_id event_id;
                            Call_delete_event_by_id (user_id user) event_id]))).
    { run_handler. rewrite He. simpl. by rewrite <- app_assoc. }
    by rewrite Hrun.
Qed.

(** C6.  [get_event_by_id]: the handler raises the 404 not-found error
    exactly when the look-up by id answers with no record; when it answers
    with a record, the handler returns the wrapper around that record, a 200
    response. *)
Theorem get_event_by_id_not_found_iff (event_id : Z) user w :
  ((get_event_by_id event_id user w).1
     = Raised (HTTPException 404 strings.EVENT_DOES_NOT_EXIST)
   ↔ repo_get_event_by_id (state w) event_id = None)
  ∧ (http_status (get_event_by_id event_id user w).1 = 404%Z
     ↔ repo_get_event_by_id (state w) event_id = None)
  ∧ (∀ e, repo_get_event_by_id (state w) event_id = Some e →
       (get_event_by_id event_id user w).1
         = Returned (mkWrapperResponse (Some (EventResponse e)))
       ∧ http_status (get_event_by_id event_id user w).1 = 200%Z).
Proof.
  run_handler.
  destruct (repo_get_event_by_id (state w) event_id) as [e|]; simpl.
  - split_and!; [split; discriminate | split; discriminate |].
    intros e' [= <-]. done.
  - split_and!; [done | done | discriminate].
Qed.

(** C9.  [update_event_by_id]: when the request's title is that of any
    existing event, whichever event that is and whatever the look-up of
    the requested id would answer, the handler raises a 409 conflict after
    the look-up by title alone: the look-up by id is not reached, no update
    call is added and the store stays as it was. *)
Theorem update_event_by_id_conflict_first (request : EventUpdate)
    (event_id : Z) user w (e : Event) :
  repo_get_event_by_title (state w) (title request) = Some e →
  update_event_by_id request event_id user w =
    (Raised (HTTPException 409 strings.EVENT_IS_EXISTS),
     mkWorld (state w) (calls w ++ [Call_get_event_by_title (title request)]))
  ∧ (∀ c, c ∈ calls (update_event_by_id request event_id user w).2 →
          is_update_call c = true → c ∈ calls w).
Proof.
  intros He.
  assert (Hrun : update_event_by_id request event_id user w =
    (Raised (HTTPException 409 strings.EVENT_IS_EXISTS),
     mkWorld (state w)
             (calls w ++ [Call_get_event_by_title (title request)]))).
  { run_handler. by rewrite He. }
  rewrite Hrun. split; [done|].
  simpl. intros c [Hc|Hc]%elem_of_app Hupdate; [done|].
  apply list_elem_of_singleton in Hc. by subst c.
Qed.
End HandlerFacts.

(** ** The handlers on a concrete store *)

Lemma create_event_conflict_or_failure_witness :
  (create_event (mkEventCreate "Sunday ride" []) (mkUser 8) sample_world).1
    = Raised (HTTPException 409 strings.EVENT_IS_EXISTS)
  ∧ state (create_event (mkEventCreate "Sunday ride" []) (mkUser 8)
                        sample_world).2 = sample_rows
  ∧ (create_event (mkEventCreate EmptyString []) (mkUser 8) sample_world).1
    = Raised (HTTPException 400 strings.EVENT_CREATE_ERROR).
Proof.
  destruct (create_event_conflict_or_failure
              (mkEventCreate "Sunday ride" []) (mkUser 8) sample_world)
    as [Hconflict _].
  destruct (Hconflict (mkEventRow 1 "Sunday ride" 7) eq_refl)
    as (Hrun & _ & Hstate).
  destruct (create_event_conflict_or_failure
              (mkEventCreate EmptyString []) (mkUser 8) sample_world)
    as [_ Hfailure].
  split_and!.
  - rewrite Hrun. reflexivity.
  - exact Hstate.
  - rewrite (Hfailure sample_rows eq_refl eq_refl). reflexivity.
Defined.

Lemma delete_event_by_id_missing_or_deleted_witness :
  delete_event_by_id 5 (mkUser 7) sample_world
    = (Raised (HTTPException 409 strings.EVENT_DOES_NOT_EXIST),
       mkWorld sample_rows [Call_get_event_by_id 5])
  ∧ delete_event_by_id 1 (mkUser 7) sample_world
    = (Returned (mkWrapperResponse None),
       mkWorld [] [Call_get_event_by_id 1; Call_delete_event_by_id 7 1]).
Proof.
  split.
  - exact (proj1 (proj1 (delete_event_by_id_missing_or_deleted
                           5 (mkUser 7) sample_world) eq_refl)).
  - exact (proj1 (proj2 (delete_event_by_id_missing_or_deleted
                           1 (mkUser 7) sample_world)
                        (mkEventRow 1 "Sunday ride" 7) eq_refl)).
Defined.

Lemma get_event_by_id_not_found_iff_witness :
  (get_event_by_id 5 (mkUser 7) sample_world).1
    = Raised (HTTPException 404 strings.EVENT_DOES_NOT_EXIST)
  ∧ (get_event_by_id 1 (mkUser 7) sample_world).1
    = Returned (mkWrapperResponse
                  (Some (EventResponse (mkEventRow 1 "Sunday ride" 7)))).
Proof.
  split.
  - exact (proj2 (proj1 (get_event_by_id_not_found_iff
                           5 (mkUser 7) sample_world)) eq_refl).
  - exact (proj1 (proj2 (proj2 (get_event_by_id_not_found_iff
                                  1 (mkUser 7) sample_world))
                        (mkEventRow 1 "Sunday ride" 7) eq_refl)).
Defined.

(** The target's own unchanged title, and an id that names no event. *)
Lemma update_event_by_id_conflict_first_witness :
  repo_get_event_by_id sample_rows 1 = Some (mkEventRow 1 "Sunday ride" 7)
  ∧ (update_event_by_id (mkEventUpdate "Sunday ride" []) 1 (mkUser 7)
                        sample_world).1
    = Raised (HTTPException 409 strings.EVENT_IS_EXISTS)
  ∧ repo_get_event_by_id sample_rows 99 = None
  ∧ update_event_by_id (mkEventUpdate "Sunday ride" []) 99 (mkUser 7)
                       sample_world
    = (Raised (HTTPException 409 strings.EVENT_IS_EXISTS),
       mkWorld sample_rows [Call_get_event_by_title "Sunday ride"]).
Proof.
  split_and!.
  - reflexivity.
  - exact (f_equal fst
             (proj1 (update_event_by_id_conflict_first
                       (mkEventUpdate "Sunday ride" []) 1 (mkUser 7)
                       sample_world (mkEventRow 1 "Sunday ride" 7) eq_refl))).
  - reflexivity.
  - exact (proj1 (update_event_by_id_conflict_first
                    (mkEventUpdate "Sunday ride" []) 99 (mkUser 7)
                    sample_world (mkEventRow 1 "Sunday ride" 7) eq_refl)).
Defined.

(** * Properties of the connection registry *)

Section RegistryFacts.
Implicit Types (c : WebSocket) (r : Registry) (k : RegistryCall).
Implicit Types (calls : list RegistryCall) (m : string).

Lemma replay_snoc calls k r :
  replay (calls ++ [k]) r = apply_call (replay calls r) k.
Proof. unfold replay. by rewrite foldl_app. Qed.








(** C7.  Deregistering a connection that is not in the active set leaves
    the registry as it was, and the manager's [disconnect] returns without
    raising. *)
Theorem deregister_absent_noop (usable : WebSocket → bool)
    (prune_broken : bool) c r :
  c ∉ active_connections r →
  deregister c r = r
  ∧ @mgr_disconnect _ (registry_manager usable prune_broken) c r
      = (Returned tt, r).
Proof.
  intros Hnotin.
  assert (Heq : deregister c r = r).
  { destruct r as [active sent]. unfold deregister. simpl in *.
    f_equal. set_solver. }
  simpl. by rewrite Heq.
Qed.

Lemma deregister_absent_noop_witness :
  deregister 2 (register 1 empty_registry) = register 1 empty_registry
  ∧ @mgr_disconnect _ (registry_manager (λ _, true) true) 2
                    (register 1 empty_registry)
      = (Returned tt, register 1 empty_registry).
Proof.
  apply (deregister_absent_noop (λ _, true) true 2
           (register 1 empty_registry)).
  simpl. set_solver.
Defined.

Section Broadcast.
Variable usable : WebSocket → bool.
Variable prune_broken : bool.

(** One pass over a list of connections: the usable ones are delivered to,
    in order; the active set can only lose connections of the pass. *)
Lemma broadcast_pass m (l : list WebSocket) r :
  delivered (foldl (λ acc c, (send_to usable prune_broken c m acc).2) r l)
    = delivered r ++ ((λ c, (c, m)) <$> filter (λ c, usable c = true) l).
Proof.
  revert r. induction l as [|c l IH]; intros r; simpl.
  - by rewrite app_nil_r.
  - rewrite IH, filter_cons. unfold send_to.
    destruct (usable c) eqn:Hc; simpl.
    + by rewrite <- app_assoc.
    + by destruct prune_broken.
Qed.

Lemma delivered_broadcast m r :
  delivered (broadcast usable prune_broken m r)
    = delivered r ++ ((λ c, (c, m)) <$>
        filter (λ c, usable c = true) (elements (active_connections r))).
Proof. apply broadcast_pass. Qed.

Lemma send_to_usable c m r :
  usable c = true →
  send_to usable prune_broken c m r
    = (Ok, mkRegistry (active_connections r) (delivered r ++ [(c, m)])).
Proof. intros Hc. unfold send_to. by rewrite Hc. Qed.

Lemma deliveries_pass c m m' (l : list WebSocket) :
  NoDup l →
  deliveries c m' ((λ c, (c, m)) <$> filter (λ c, usable c = true) l)
    = if decide (m' = m ∧ c ∈ l ∧ usable c = true) then 1 else 0.
Proof.
  unfold deliveries. induction 1 as [|c' l Hnotin Hnodup IH]; simpl.
  - case_decide as Hd; [|done]. destruct Hd as (_ & Hin & _).
    by apply elem_of_nil in Hin.
  - rewrite filter_cons. destruct (decide (usable c' = true)) as [Hc'|Hc'].
    + rewrite fmap_cons, filter_cons.
      destruct (decide ((c', m) = (c, m'))) as [[= -> ->]|Hne]; simpl;
        rewrite IH.
      * rewrite (decide_False (P := m' = m' ∧ c ∈ l ∧ usable c = true))
          by naive_solver.
        rewrite decide_True; [done|]. split_and!; [done|set_solver|done].
      * destruct (decide (m' = m ∧ c ∈ l ∧ usable c = true)) as [Hd|Hd].
        -- rewrite decide_True; [done|]. set_solver.
        -- rewrite decide_False; [done|].
           intros (-> & [->|Hin]%elem_of_cons & Hu); [done|]. by apply Hd.
    + rewrite IH.
      destruct (decide (m' = m ∧ c ∈ l ∧ usable c = true)) as [Hd|Hd].
      * rewrite decide_True; [done|]. set_solver.
      * rewrite decide_False; [done|].
        intros (-> & [->|Hin]%elem_of_cons & Hu); [done|]. by apply Hd.
Qed.

(** C2.  [broadcast m] on any registry returns without raising, and the
    deliveries it makes are these: [m] exactly once to every connection
    that is in the active set when the call starts and whose transport is
    usable, and nothing else to anyone.  A connection whose delivery fails
    therefore takes nothing from the others. *)
Theorem broadcast_delivers_once_best_effort m r :
  @mgr_broadcast _ (registry_manager usable prune_broken) m r
    = (Returned tt, broadcast usable prune_broken m r)
  ∧ delivered (broadcast usable prune_broken m r)
      = delivered r ++ delivered_since r (broadcast usable prune_broken m r)
  ∧ ∀ c m',
      deliveries c m' (delivered_since r (broadcast usable prune_broken m r))
        = if decide (m' = m ∧ c ∈ active_connections r ∧ usable c = true)
          then 1 else 0.
Proof.
  assert (Hsince : delivered_since r (broadcast usable prune_broken m r)
    = (λ c, (c, m)) <$>
        filter (λ c, usable c = true) (elements (active_connections r))).
  { unfold delivered_since. rewrite delivered_broadcast.
    by rewrite drop_app_length. }
  split_and!.
  - done.
  - by rewrite Hsince, delivered_broadcast.
  - intros c m'. rewrite Hsince, deliveries_pass by apply NoDup_elements.
    destruct (decide (m' = m ∧ c ∈ active_connections r ∧ usable c = true))
      as [Hd|Hd].
    + rewrite decide_True; [done|]. set_solver.
    + rewrite decide_False; [done|]. set_solver.
Qed.

(** What a pass does to the active set: nothing when broken connections are
    kept, and otherwise it drops the unusable connections it went over. *)
Lemma active_pass m (l : list WebSocket) r :
  active_connections
    (foldl (λ acc c, (send_to usable prune_broken c m acc).2) r l)
    = if prune_broken
      then active_connections r
             ∖ list_to_set (filter (λ c, usable c = false) l)
      else active_connections r.
Proof.
  revert r. induction l as [|c l IH]; intros r; simpl.
  - destruct prune_broken; set_solver.
  - rewrite IH, filter_cons. unfold send_to.
    destruct (usable c) eqn:Hc, prune_broken; simpl; set_solver.
Qed.

Lemma broadcast_subseteq m r :
  active_connections (broadcast usable prune_broken m r)
    ⊆ active_connections r.
Proof.
  unfold broadcast. rewrite active_pass. destruct prune_broken; set_solver.
Qed.

(** A registered connection stays registered through a broadcast unless the
    registry itself prunes it as broken. *)
Lemma broadcast_keeps c m r :
  prune_broken = false ∨ usable c = true →
  c ∈ active_connections r →
  c ∈ active_connections (broadcast usable prune_broken m r).
Proof.
  intros Hkeep Hin. unfold broadcast. rewrite active_pass.
  destruct prune_broken; [|done].
  destruct Hkeep as [?|Hc]; [done|].
  apply elem_of_difference. split; [done|].
  rewrite elem_of_list_to_set, list_elem_of_filter. intros [Hc' _].
  congruence.
Qed.

Lemma broadcast_all_usable m r :
  (∀ c, c ∈ active_connections r → usable c = true) →
  active_connections (broadcast usable prune_broken m r)
    = active_connections r.
Proof.
  intros Hall. apply set_eq. intros c. split.
  - apply broadcast_subseteq.
  - intros Hin. apply broadcast_keeps; [right; by apply Hall | done].
Qed.
End Broadcast.

(** Connections 1, 2 and 3 are registered and the transport of 2 is broken:
    a broadcast reaches 1 and 3 once each and 2 not at all. *)
Example broadcast_three_one_broken :
  let r := replay [Register 1; Register 2; Register 3] empty_registry in
  let sent := delivered (broadcast (λ c, negb (c =? 2)) true "m" r) in
  deliveries 1 "m" sent = 1 ∧ deliveries 2 "m" sent = 0
  ∧ deliveries 3 "m" sent = 1 ∧ length sent = 2.
Proof. by vm_compute. Qed.
End RegistryFacts.

(** * Properties of the WebSocket session *)

Lemma append_inv_head (s a b : string) : s +:+ a = s +:+ b → a = b.
Proof. induction s as [|x s IH]; simpl; [done|]. intros [= H]. by apply IH. Qed.


Section SessionFacts.
Context {St : Type} `{!ConnectionManager St}.
Implicit Types (w : World St ManagerCall) (user : User).
Implicit Types (websocket : WebSocket) (inbox : list Received).

Lemma extends_by_refl (P : ManagerCall → Prop) w : extends_by P w w.
Proof. exists []. by rewrite app_nil_r. Qed.

Lemma extends_by_trans (P : ManagerCall → Prop) w1 w2 w3 :
  extends_by P w1 w2 → extends_by P w2 w3 → extends_by P w1 w3.
Proof.
  intros (new1 & H1 & HP1) (new2 & H2 & HP2). exists (new1 ++ new2).
  split; [by rewrite H2, H1, app_assoc | by apply Forall_app].
Qed.

Lemma manager_call_extends (P : ManagerCall → Prop) (c : ManagerCall)
    (f : St → outcome unit * St) w :
  P c → extends_by P w (manager.call c f w).2.
Proof.
  intros Hc. exists [c]. unfold manager.call.
  destruct (f (state w)); simpl. split; [done | by constructor].
Qed.

(** Whatever the manager does, the loop only ever calls it to echo a payload
    to its own socket and to broadcast what its client says. *)
Lemma receive_loop_calls websocket user inbox w :
  extends_by (loop_call websocket user) w
             (receive_loop websocket user inbox w).2.
Proof.
  revert w. induction inbox as [|[data|e] inbox IH]; intros w;
    [apply extends_by_refl | | apply extends_by_refl].
  simpl. unfold mbind, M_bind, bind.
  pose proof (manager_call_extends (loop_call websocket user)
    (Call_send_personal_message (you_wrote data) websocket)
    (mgr_send_personal_message (you_wrote data) websocket) w) as Hecho.
  unfold manager.send_personal_message.
  destruct (manager.call _ _ w) as [[[]|e1] w1]; simpl in *;
    [|apply Hecho; by exists data; left].
  pose proof (manager_call_extends (loop_call websocket user)
    (Call_broadcast (client_says user data))
    (mgr_broadcast (client_says user data)) w1) as Hsays.
  unfold manager.broadcast.
  destruct (manager.call _ _ w1) as [[[]|e2] w2]; simpl in *.
  - eapply extends_by_trans; [apply Hecho; by exists data; left|].
    eapply extends_by_trans; [apply Hsays; by exists data; right|].
    apply IH.
  - eapply extends_by_trans; [apply Hecho; by exists data; left|].
    apply Hsays. by exists data; right.
Qed.









(** A session suspended in [receive_json] goes on, when the transport
    delivers more, from the world it finds then. *)
Lemma receive_loop_app websocket user inbox inbox' w :
  receive_loop websocket user (inbox ++ inbox') w =
    match receive_loop websocket user inbox w with
    | (Returned Receiving, w') => receive_loop websocket user inbox' w'
    | r => r
    end.
Proof.
  revert w. induction inbox as [|[data|e] inbox IH]; intros w; [done| |done].
  simpl. unfold mbind, M_bind, bind.
  destruct (manager.send_personal_message _ _ w) as [[[]|e1] w1]; [|done].
  destruct (manager.broadcast _ w1) as [[[]|e2] w2]; [|done].
  apply IH.
Qed.

Lemma session_app websocket user inbox inbox' w :
  session websocket user (inbox ++ inbox') w =
    match session websocket user inbox w with
    | (Returned Receiving, w') => session websocket user inbox' w'
    | r => r
    end.
Proof.
  unfold session, try_except_WebSocketDisconnect. rewrite receive_loop_app.
  destruct (receive_loop websocket user inbox w) as [[[|]|e] w']; [done|done|].
  destruct e; try done.
  unfold on_disconnect, mbind, mret, M_bind, M_ret, bind, ret.
  destruct (manager.disconnect _ w') as [[[]|e1] w1]; [|done].
  by destruct (manager.broadcast _ w1) as [[[]|e2] w2].
Qed.

Lemma websocket_events_app websocket user inbox inbox' w :
  websocket_events websocket user (inbox ++ inbox') w =
    match websocket_events websocket user inbox w with
    | (Returned Receiving, w') => session websocket user inbox' w'
    | r => r
    end.
Proof.
  unfold websocket_events, mbind, M_bind, bind.
  destruct (manager.connect websocket w) as [[[]|e] w1]; [|done].
  apply session_app.
Qed.
End SessionFacts.

(** ** The session over the registry *)

Section RegistrySession.
Variables usable usable' : WebSocket → bool.
Variable prune_broken : bool.
Implicit Types (w : World Registry ManagerCall) (user : User).

Lemma broadcast_pair (A B : WebSocket) m l :
  A ≠ B → usable A = true → usable B = true →
  delivered_since (mkRegistry ({[B]} ∪ ({[A]} ∪ ∅)) l)
                  (broadcast usable prune_broken m
                     (mkRegistry ({[B]} ∪ ({[A]} ∪ ∅)) l))
    ≡ₚ [(A, m); (B, m)].
Proof.
  intros HAB HA HB. unfold delivered_since.
  rewrite delivered_broadcast. simpl. rewrite drop_app_length.
  rewrite elements_union_singleton by set_solver.
  rewrite union_empty_r_L, elements_singleton.
  rewrite !filter_cons, filter_nil, !decide_True by done.
  simpl. apply Permutation_swap.
Qed.

Lemma broadcast_single (A : WebSocket) m l :
  usable' A = true →
  delivered_since (mkRegistry {[A]} l)
                  (broadcast usable' prune_broken m (mkRegistry {[A]} l))
    = [(A, m)].
Proof.
  intros HA. unfold delivered_since.
  rewrite delivered_broadcast. simpl. rewrite drop_app_length.
  rewrite elements_singleton, filter_cons, filter_nil.
  by rewrite decide_True.
Qed.
End RegistrySession.

(** C3.  Clients A and B connect to an empty registry, which makes the
    active set {A, B}.  When A's session receives "hi", it calls the
    manager to send "You wrote: hi" to A and to broadcast
    "Client #<A's id> says: hi"; the registry delivers the first to A and
    the second once to A, the sender, and once to B.  When B's session
    receives the disconnect signal, it returns after calling [disconnect]
    for B and broadcasting "Client #<B's id> left the chat"; the active set
    is then {A} and the notice is delivered to A alone. *)
Theorem two_clients_scenario (usable usable' : WebSocket → bool)
    (prune_broken : bool) (A B : WebSocket) (userA userB : User) :
  A ≠ B → usable A = true → usable B = true → usable' A = true →
  let serve := @websocket_events _ (registry_manager usable prune_broken) in
  let resume := @session _ (registry_manager usable prune_broken) in
  let resume' := @session _ (registry_manager usable' prune_broken) in
  let w1 := (serve A userA [] (mkWorld empty_registry [])).2 in
  let w2 := (serve B userB [] w1).2 in
  let w3 := (resume A userA [Json "hi"] w2).2 in
  let w4 := (resume' B userB [Raises WebSocketDisconnect] w3).2 in
  active_connections (state w2) = {[A; B]}
  ∧ calls w3 = calls w2 ++ [Call_send_personal_message "You wrote: hi" A;
                            Call_broadcast (client_says userA "hi")]
  ∧ (∃ bc, delivered_since (state w2) (state w3)
             = (A, "You wrote: hi") :: bc
           ∧ bc ≡ₚ [(A, client_says userA "hi"); (B, client_says userA "hi")])
  ∧ (resume' B userB [Raises WebSocketDisconnect] w3).1 = Returned Closed
  ∧ calls w4 = calls w3 ++ [Call_disconnect B;
                            Call_broadcast (client_left userB)]
  ∧ active_connections (state w4) = {[A]}
  ∧ delivered_since (state w3) (state w4) = [(A, client_left userB)].
Proof.
  intros HAB HA HB HA'. simpl.
  rewrite send_to_usable by done. simpl.
  set (r2 := mkRegistry ({[B]} ∪ ({[A]} ∪ ∅)) [(A, you_wrote "hi")]).
  set (r3 := broadcast usable prune_broken (client_says userA "hi") r2).
  assert (Hactive3 : active_connections r3 = {[B]} ∪ ({[A]} ∪ ∅)).
  { apply broadcast_all_usable. intros c. simpl.
    rewrite !elem_of_union, !elem_of_singleton, elem_of_empty.
    by intros [->|[->|[]]]. }
  assert (Hleave : deregister B r3 = mkRegistry {[A]} (delivered r3)).
  { unfold deregister. rewrite Hactive3. f_equal. set_solver. }
  rewrite Hleave.
  split_and!; try done.
  - set_solver.
  - exists (delivered_since r2 r3). split; [|by apply broadcast_pair].
    unfold delivered_since, r3. by rewrite delivered_broadcast.
  - apply broadcast_all_usable. intros c Hc. simpl in Hc.
    apply elem_of_singleton in Hc. by subst c.
  - by apply (broadcast_single usable' prune_broken A _ (delivered r3)).
Qed.

Lemma two_clients_scenario_witness :
  let live := registry_manager (λ _, true) true in
  let gone := registry_manager (λ c, bool_decide (c = 1)) true in
  let w2 := (@websocket_events _ live 2 (mkUser 2) []
               (@websocket_events _ live 1 (mkUser 1) []
                  (mkWorld empty_registry [])).2).2 in
  let w3 := (@session _ live 1 (mkUser 1) [Json "hi"] w2).2 in
  let w4 := (@session _ gone 2 (mkUser 2) [Raises WebSocketDisconnect] w3).2 in
  active_connections (state w2) = {[1; 2]}
  ∧ calls w3 = calls w2 ++ [Call_send_personal_message "You wrote: hi" 1;
                            Call_broadcast "Client #1 says: hi"]
  ∧ active_connections (state w4) = {[1]}
  ∧ delivered_since (state w3) (state w4) = [(1, "Client #2 left the chat")].
Proof.
  destruct (two_clients_scenario (λ _, true) (λ c, bool_decide (c = 1)) true
              1 2 (mkUser 1) (mkUser 2))
    as (Hset & Hcalls & _ & _ & _ & Hset' & Hleft);
    [lia | reflexivity | reflexivity | reflexivity |].
  split_and!; [exact Hset | exact Hcalls | exact Hset' | exact Hleft].
Defined.



(** * Further properties of the HTTP handlers *)

Section HandlerRuns.
Context {Event R : Type} `{!EventRepository Event R}.
Implicit Types (w : World R RepoCall) (user : User).

Ltac step_handler :=
  unfold create_event, get_events_by_filter, get_event_by_id,
    update_event_by_id, delete_event_by_id;
  unfold event_repository.get_event_by_title,
    event_repository.get_event_by_id, event_repository.get_events,
    event_repository.create_event_by_user_id,
    event_repository.update_event_by_id,
    event_repository.delete_event_by_id,
    event_repository.query, event_repository.command;
  unfold mbind, mret, M_bind, M_ret, bind, ret, raise; simpl.

(** What each handler does, by the answers of the repository. *)
Lemma create_event_run (request : EventCreate) user w :
  create_event request user w =
    match repo_get_event_by_title (state w) (title request) with
    | Some _ =>
        (Raised (HTTPException 409 strings.EVENT_IS_EXISTS),
         mkWorld (state w)
                 (calls w ++ [Call_get_event_by_title (title request)]))
    | None =>
        let answer :=
          repo_create_event_by_user_id (state w) (user_id user) request in
        (match answer.1 with
         | None => Raised (HTTPException 400 strings.EVENT_CREATE_ERROR)
         | Some e => Returned (mkWrapperResponse (Some (EventResponse e)))
         end,
         mkWorld answer.2
                 (calls w ++ [Call_get_event_by_title (title request);
                              Call_create_event_by_user_id (user_id user)
                                                           request]))
    end.
Proof.
  step_handler.
  destruct (repo_get_event_by_title (state w) (title request)); [done|].
  simpl. destruct (repo_create_event_by_user_id _ _ _) as [[e|] r']; simpl;
    by rewrite <- app_assoc.
Qed.

Lemma update_event_by_id_run (request : EventUpdate) (event_id : Z) user w :
  update_event_by_id request event_id user w =
    match repo_get_event_by_title (state w) (title request) with
    | Some _ =>
        (Raised (HTTPException 409 strings.EVENT_IS_EXISTS),
         mkWorld (state w)
                 (calls w ++ [Call_get_event_by_title (title request)]))
    | None =>
        match repo_get_event_by_id (state w) event_id with
        | None =>
            (Raised (HTTPException 404 strings.EVENT_DOES_NOT_EXIST),
             mkWorld (state w)
                     (calls w ++ [Call_get_event_by_title (title request);
                                  Call_get_event_by_id event_id]))
        | Some _ =>
            let answer :=
              repo_update_event_by_id (state w) (user_id user) event_id
                                      request in
            (match answer.1 with
             | None => Raised (HTTPException 400 strings.EVENT_CREATE_ERROR)
             | Some e => Returned (mkWrapperResponse (Some (EventResponse e)))
             end,
             mkWorld answer.2
                     (calls w ++ [Call_get_event_by_title (title request);
                                  Call_get_event_by_id event_id;
                                  Call_update_event_by_id (user_id user)
                                                          event_id request]))
        end
    end.
Proof.
  step_handler.
  destruct (repo_get_event_by_title (state w) (title request)); [done|].
  simpl. destruct (repo_get_event_by_id (state w) event_id); simpl;
    [|by rewrite <- app_assoc].
  destruct (repo_update_event_by_id _ _ _ _) as [[updated|] r']; simpl;
    by rewrite <- !app_assoc.
Qed.

Lemma delete_event_by_id_run (event_id : Z) user w :
  delete_event_by_id event_id user w =
    match repo_get_event_by_id (state w) event_id with
    | None =>
        (Raised (HTTPException 409 strings.EVENT_DOES_NOT_EXIST),
         mkWorld (state w) (calls w ++ [Call_get_event_by_id event_id]))
    | Some _ =>
        (Returned (mkWrapperResponse None),
         mkWorld (repo_delete_event_by_id (state w) (user_id user) event_id)
                 (calls w ++ [Call_get_event_by_id event_id;
                              Call_delete_event_by_id (user_id user)
                                                      event_id]))
    end.
Proof.
  step_handler. destruct (repo_get_event_by_id (state w) event_id); simpl;
    [by rewrite <- app_assoc | done].
Qed.

Lemma get_event_by_id_run (event_id : Z) user w :
  get_event_by_id event_id user w =
    (match repo_get_event_by_id (state w) event_id with
     | None => Raised (HTTPException 404 strings.EVENT_DOES_NOT_EXIST)
     | Some e => Returned (mkWrapperResponse (Some (EventResponse e)))
     end,
     mkWorld (state w) (calls w ++ [Call_get_event_by_id event_id])).
Proof.
  step_handler. by destruct (repo_get_event_by_id (state w) event_id).
Qed.

Lemma get_events_by_filter_run (events_filter : EventsFilter) w :
  get_events_by_filter events_filter w =
    (Returned (mkWrapperResponse
                 (Some (EventsResponse
                          (repo_get_events (state w) (limit events_filter)
                                           (offset events_filter))))),
     mkWorld (state w)
             (calls w ++ [Call_get_events (limit events_filter)
                                          (offset events_filter)])).
Proof. by step_handler. Qed.

Lemma new_calls_app (l : list RepoCall) w (r : R) :
  new_calls w (mkWorld r (calls w ++ l)) = l.
Proof. unfold new_calls. simpl. by rewrite drop_app_length. Qed.

(** X1.  [create_event] on the main path: when no event has the request's
    title and the create call answers with a record, the handler returns
    the wrapper around that record, a 200 response; it has called the
    look-up by title and then create, once, with the caller's id and the
    request as received, and the store is the one create left. *)
Theorem create_event_created (request : EventCreate) user w (e : Event)
    (r' : R) :
  repo_get_event_by_title (state w) (title request) = None →
  repo_create_event_by_user_id (state w) (user_id user) request
    = (Some e, r') →
  create_event request user w =
    (Returned (mkWrapperResponse (Some (EventResponse e))),
     mkWorld r' (calls w ++ [Call_get_event_by_title (title request);
                             Call_create_event_by_user_id (user_id user)
                                                          request]))
  ∧ http_status (create_event request user w).1 = 200%Z.
Proof.
  intros Hfree Hcreate. rewrite create_event_run, Hfree, Hcreate. done.
Qed.

(** X4.  [update_event_by_id] for an id that names no event, when the
    request's title is free: the handler raises 404 with
    [EVENT_DOES_NOT_EXIST] after the two look-ups, makes no update call and
    leaves the store as it was. *)
Theorem update_event_by_id_not_found (request : EventUpdate) (event_id : Z)
    user w :
  repo_get_event_by_title (state w) (title request) = None →
  repo_get_event_by_id (state w) event_id = None →
  update_event_by_id request event_id user w =
    (Raised (HTTPException 404 strings.EVENT_DOES_NOT_EXIST),
     mkWorld (state w) (calls w ++ [Call_get_event_by_title (title request);
                                    Call_get_event_by_id event_id])).
Proof.
  intros Hfree Hmissing. by rewrite update_event_by_id_run, Hfree, Hmissing.
Qed.

(** X5.  [update_event_by_id] for an existing id and a free title: the
    handler calls update once, with the caller's id, the event id and the
    request as received.  When update answers with no record it raises 400
    with the message of a failed creation, [EVENT_CREATE_ERROR]; when it
    answers with a record it returns the wrapper around it, a 200
    response.  The store is the one update left in both cases. *)
Theorem update_event_by_id_updates (request : EventUpdate) (event_id : Z)
    user w (target : Event) (answer : option Event) (r' : R) :
  repo_get_event_by_title (state w) (title request) = None →
  repo_get_event_by_id (state w) event_id = Some target →
  repo_update_event_by_id (state w) (user_id user) event_id request
    = (answer, r') →
  update_event_by_id request event_id user w =
    (match answer with
     | None => Raised (HTTPException 400 strings.EVENT_CREATE_ERROR)
     | Some e => Returned (mkWrapperResponse (Some (EventResponse e)))
     end,
     mkWorld r' (calls w ++ [Call_get_event_by_title (title request);
                             Call_get_event_by_id event_id;
                             Call_update_event_by_id (user_id user) event_id
                                                     request])).
Proof.
  intros Hfree Htarget Hupdate.
  by rewrite update_event_by_id_run, Hfree, Htarget, Hupdate.
Qed.

(** X6.  A 404 or a 409 is raised before any command: when POST answers
    409, PATCH answers 404 or 409, or DELETE answers 409, the store is the
    one the request found and every call made was a query. *)
Theorem conflict_and_not_found_leave_store (request_c : EventCreate)
    (request_u : EventUpdate) (event_id : Z) user w :
  (http_status (create_event request_c user w).1 = 409%Z →
     state (create_event request_c user w).2 = state w
     ∧ Forall (λ c, is_command c = false)
              (new_calls w (create_event request_c user w).2))
  ∧ (http_status (update_event_by_id request_u event_id user w).1
       ∈ [404; 409]%Z →
     state (update_event_by_id request_u event_id user w).2 = state w
     ∧ Forall (λ c, is_command c = false)
              (new_calls w (update_event_by_id request_u event_id user w).2))
  ∧ (http_status (delete_event_by_id event_id user w).1 = 409%Z →
     state (delete_event_by_id event_id user w).2 = state w
     ∧ Forall (λ c, is_command c = false)
              (new_calls w (delete_event_by_id event_id user w).2)).
Proof.
  rewrite create_event_run, update_event_by_id_run, delete_event_by_id_run.
  split_and!.
  - destruct (repo_get_event_by_title _ (title request_c)); simpl.
    + intros _. rewrite new_calls_app. by repeat constructor.
    + by destruct (repo_create_event_by_user_id _ _ _).1.
  - destruct (repo_get_event_by_title _ (title request_u)); simpl.
    { intros _. rewrite new_calls_app. by repeat constructor. }
    destruct (repo_get_event_by_id _ _); simpl.
    + destruct (repo_update_event_by_id _ _ _ _).1; simpl; set_solver.
    + intros _. rewrite new_calls_app. by repeat constructor.
  - destruct (repo_get_event_by_id _ _); simpl; [done|].
    intros _. rewrite new_calls_app. by repeat constructor.
Qed.

(** X7.  No request issues more than one command, and a command is always
    the last call of a request: the calls of every handler are queries
    followed by at most one command. *)
Theorem one_command_at_most_and_last (request_c : EventCreate)
    (request_u : EventUpdate) (events_filter : EventsFilter) (event_id : Z)
    user w :
  queries_then_command (new_calls w (create_event request_c user w).2)
  ∧ queries_then_command (new_calls w (get_events_by_filter events_filter w).2)
  ∧ queries_then_command (new_calls w (get_event_by_id event_id user w).2)
  ∧ queries_then_command
      (new_calls w (update_event_by_id request_u event_id user w).2)
  ∧ queries_then_command (new_calls w (delete_event_by_id event_id user w).2).
Proof.
  assert (Hq : ∀ qs, Forall (λ c, is_command c = false) qs →
                     queries_then_command qs).
  { intros qs Hqs. exists qs, []. rewrite app_nil_r. by eauto. }
  assert (Hc : ∀ qs c, Forall (λ c, is_command c = false) qs →
                       is_command c = true →
                       queries_then_command (qs ++ [c])).
  { intros qs c Hqs Hcmd. exists qs, [c].
    split_and!; [done | done | right; by exists c]. }
  rewrite create_event_run, get_events_by_filter_run, get_event_by_id_run,
    update_event_by_id_run, delete_event_by_id_run.
  split_and!.
  - destruct (repo_get_event_by_title _ (title request_c)); simpl;
      rewrite new_calls_app.
    + apply Hq. by repeat constructor.
    + apply (Hc [_]); [by repeat constructor | done].
  - simpl. rewrite new_calls_app. apply Hq. by repeat constructor.
  - simpl. rewrite new_calls_app. apply Hq. by repeat constructor.
  - destruct (repo_get_event_by_title _ (title request_u)); simpl.
    { rewrite new_calls_app. apply Hq. by repeat constructor. }
    destruct (repo_get_event_by_id _ _); simpl; rewrite new_calls_app.
    + apply (Hc [_; _]); [by repeat constructor | done].
    + apply Hq. by repeat constructor.
  - destruct (repo_get_event_by_id _ _); simpl; rewrite new_calls_app.
    + apply (Hc [_]); [by repeat constructor | done].
    + apply Hq. by repeat constructor.
Qed.

(** X8.  The same title cannot be created twice through the handler: once
    a POST has created an event that the repository then finds by its
    title, a second POST with that title, from any user, raises 409 without
    calling create, and the store stays as the first POST left it. *)
Theorem create_event_twice_conflicts (request request' : EventCreate)
    user user' w (e found : Event) (r' : R) :
  repo_get_event_by_title (state w) (title request) = None →
  repo_create_event_by_user_id (state w) (user_id user) request
    = (Some e, r') →
  repo_get_event_by_title r' (title request) = Some found →
  title request' = title request →
  create_event request' user' (create_event request user w).2 =
    (Raised (HTTPException 409 strings.EVENT_IS_EXISTS),
     mkWorld r' (calls w ++ [Call_get_event_by_title (title request);
                             Call_create_event_by_user_id (user_id user)
                                                          request;
                             Call_get_event_by_title (title request)])).
Proof.
  intros Hfree Hcreate Hfound Htitle.
  rewrite (create_event_run request), Hfree, Hcreate. simpl.
  rewrite create_event_run. simpl. rewrite Htitle, Hfound.
  by rewrite <- app_assoc.
Qed.

(** X9.  DELETE is not repeatable: once a DELETE has removed an event, so
    that the repository no longer finds the id, a second DELETE of that id
    raises 409 and a GET of it raises 404; neither touches the store. *)
Theorem delete_event_by_id_then_gone (event_id : Z) user user' w
    (target : Event) :
  repo_get_event_by_id (state w) event_id = Some target →
  repo_get_event_by_id
    (repo_delete_event_by_id (state w) (user_id user) event_id) event_id
    = None →
  (delete_event_by_id event_id user w).1 = Returned (mkWrapperResponse None)
  ∧ (delete_event_by_id event_id user'
       (delete_event_by_id event_id user w).2).1
    = Raised (HTTPException 409 strings.EVENT_DOES_NOT_EXIST)
  ∧ (get_event_by_id event_id user'
       (delete_event_by_id event_id user w).2).1
    = Raised (HTTPException 404 strings.EVENT_DOES_NOT_EXIST)
  ∧ state (delete_event_by_id event_id user'
             (delete_event_by_id event_id user w).2).2
    = repo_delete_event_by_id (state w) (user_id user) event_id.
Proof.
  intros Htarget Hgone.
  rewrite (delete_event_by_id_run event_id user w), Htarget. simpl.
  rewrite delete_event_by_id_run, get_event_by_id_run. simpl.
  by rewrite Hgone.
Qed.

(** X10.  The handlers make no check on who calls: GET by id answers the
    same for every user, DELETE has the same outcome for every user, and
    whether POST answers 409, or PATCH 404 or 409, does not depend on the
    user.  The caller's id only travels to the repository's commands. *)
Theorem checks_ignore_caller (request_c : EventCreate)
    (request_u : EventUpdate) (event_id : Z) user user' w :
  get_event_by_id event_id user w = get_event_by_id event_id user' w
  ∧ (delete_event_by_id event_id user w).1
    = (delete_event_by_id event_id user' w).1
  ∧ (http_status (create_event request_c user w).1 = 409%Z
     ↔ http_status (create_event request_c user' w).1 = 409%Z)
  ∧ (∀ code, code ∈ [404; 409]%Z →
       http_status (update_event_by_id request_u event_id user w).1 = code
       ↔ http_status (update_event_by_id request_u event_id user' w).1 = code).
Proof.
  rewrite !get_event_by_id_run, !delete_event_by_id_run, !create_event_run,
    !update_event_by_id_run.
  split_and!.
  - done.
  - by destruct (repo_get_event_by_id _ _).
  - destruct (repo_get_event_by_title _ _); simpl; [done|].
    by destruct (repo_create_event_by_user_id _ (user_id user) _).1,
      (repo_create_event_by_user_id _ (user_id user') _).1.
  - intros code Hcode.
    destruct (repo_get_event_by_title _ _); simpl; [done|].
    destruct (repo_get_event_by_id _ _); simpl; [|done].
    destruct (repo_update_event_by_id _ (user_id user) _ _).1,
      (repo_update_event_by_id _ (user_id user') _ _).1; simpl;
      set_solver.
Qed.
End HandlerRuns.

Lemma create_event_created_witness :
  create_event (mkEventCreate "Night ride" []) (mkUser 8) sample_world =
    (Returned (mkWrapperResponse
                 (Some (EventResponse (mkEventRow 2 "Night ride" 8)))),
     mkWorld [mkEventRow 1 "Sunday ride" 7; mkEventRow 2 "Night ride" 8]
             [Call_get_event_by_title "Night ride";
              Call_create_event_by_user_id 8 (mkEventCreate "Night ride" [])]).
Proof.
  exact (proj1 (create_event_created
                  (mkEventCreate "Night ride" []) (mkUser 8) sample_world
                  (mkEventRow 2 "Night ride" 8)
                  [mkEventRow 1 "Sunday ride" 7; mkEventRow 2 "Night ride" 8]
                  eq_refl eq_refl)).
Defined.

Lemma update_event_by_id_not_found_witness :
  update_event_by_id (mkEventUpdate "Night ride" []) 99 (mkUser 7)
                     sample_world =
    (Raised (HTTPException 404 strings.EVENT_DOES_NOT_EXIST),
     mkWorld sample_rows [Call_get_event_by_title "Night ride";
                          Call_get_event_by_id 99]).
Proof.
  exact (update_event_by_id_not_found
           (mkEventUpdate "Night ride" []) 99 (mkUser 7) sample_world
           eq_refl eq_refl).
Defined.

Lemma update_event_by_id_updates_witness :
  (update_event_by_id (mkEventUpdate "Night ride" []) 1 (mkUser 7)
                      sample_world).1
    = Returned (mkWrapperResponse
                  (Some (EventResponse (mkEventRow 1 "Night ride" 7)))).
Proof.
  exact (f_equal fst
           (update_event_by_id_updates
              (mkEventUpdate "Night ride" []) 1 (mkUser 7) sample_world
              (mkEventRow 1 "Sunday ride" 7)
              (Some (mkEventRow 1 "Night ride" 7))
              [mkEventRow 1 "Night ride" 7] eq_refl eq_refl eq_refl)).
Defined.

Lemma conflict_and_not_found_leave_store_witness :
  state (create_event (mkEventCreate "Sunday ride" []) (mkUser 8)
                      sample_world).2 = sample_rows
  ∧ state (update_event_by_id (mkEventUpdate "Night ride" []) 99 (mkUser 7)
                              sample_world).2 = sample_rows
  ∧ state (delete_event_by_id 99 (mkUser 7) sample_world).2 = sample_rows.
Proof.
  split_and!.
  - apply (proj1 (conflict_and_not_found_leave_store
                    (mkEventCreate "Sunday ride" [])
                    (mkEventUpdate "Night ride" []) 99 (mkUser 8)
                    sample_world)).
    reflexivity.
  - apply (proj1 (proj2 (conflict_and_not_found_leave_store
                           (mkEventCreate "Sunday ride" [])
                           (mkEventUpdate "Night ride" []) 99 (mkUser 7)
                           sample_world))).
    apply list_elem_of_here.
  - apply (proj2 (proj2 (conflict_and_not_found_leave_store
                           (mkEventCreate "Sunday ride" [])
                           (mkEventUpdate "Night ride" []) 99 (mkUser 7)
                           sample_world))).
    reflexivity.
Defined.

Lemma create_event_twice_conflicts_witness :
  (create_event (mkEventCreate "Night ride" [("place", "pier")]) (mkUser 9)
     (create_event (mkEventCreate "Night ride" []) (mkUser 8)
                   sample_world).2).1
    = Raised (HTTPException 409 strings.EVENT_IS_EXISTS).
Proof.
  exact (f_equal fst
           (create_event_twice_conflicts
              (mkEventCreate "Night ride" [])
              (mkEventCreate "Night ride" [("place", "pier")])
              (mkUser 8) (mkUser 9) sample_world
              (mkEventRow 2 "Night ride" 8) (mkEventRow 2 "Night ride" 8)
              [mkEventRow 1 "Sunday ride" 7; mkEventRow 2 "Night ride" 8]
              eq_refl eq_refl eq_refl eq_refl)).
Defined.

Lemma delete_event_by_id_then_gone_witness :
  (delete_event_by_id 1 (mkUser 8)
     (delete_event_by_id 1 (mkUser 7) sample_world).2).1
    = Raised (HTTPException 409 strings.EVENT_DOES_NOT_EXIST)
  ∧ (get_event_by_id 1 (mkUser 8)
       (delete_event_by_id 1 (mkUser 7) sample_world).2).1
    = Raised (HTTPException 404 strings.EVENT_DOES_NOT_EXIST).
Proof.
  destruct (delete_event_by_id_then_gone 1 (mkUser 7) (mkUser 8) sample_world
              (mkEventRow 1 "Sunday ride" 7))
    as (_ & Hagain & Hget & _); [reflexivity | reflexivity |].
  split; [exact Hagain | exact Hget].
Defined.

Lemma checks_ignore_caller_witness :
  http_status (update_event_by_id (mkEventUpdate "Night ride" []) 99
                                  (mkUser 7) sample_world).1 = 404%Z
  ↔ http_status (update_event_by_id (mkEventUpdate "Night ride" []) 99
                                    (mkUser 8) sample_world).1 = 404%Z.
Proof.
  apply (proj2 (proj2 (proj2 (checks_ignore_caller
                                (mkEventCreate "Night ride" [])
                                (mkEventUpdate "Night ride" []) 99
                                (mkUser 7) (mkUser 8) sample_world)))).
  apply list_elem_of_here.
Defined.

(** * Further properties of the WebSocket session *)

Section SessionRuns.
Context {St : Type} `{!ConnectionManager St}.
Implicit Types (w : World St ManagerCall) (user : User).
Implicit Types (websocket : WebSocket) (inbox : list Received).

Lemma manager_call_eq (c : ManagerCall) (f : St → outcome unit * St) w :
  manager.call c f w = ((f (state w)).1,
                        mkWorld (f (state w)).2 (calls w ++ [c])).
Proof. unfold manager.call. by destruct (f (state w)). Qed.

Lemma new_calls_snoc (l : list ManagerCall) w (s : St) :
  new_calls w (mkWorld s (calls w ++ l)) = l.
Proof. unfold new_calls. simpl. by rewrite drop_app_length. Qed.

Lemma receive_loop_not_closed websocket user inbox w :
  (receive_loop websocket user inbox w).1 ≠ Returned Closed.
Proof.
  revert w. induction inbox as [|[data|e] inbox IH]; intros w; [done| |done].
  simpl. unfold mbind, M_bind, bind.
  destruct (manager.send_personal_message _ _ w) as [[[]|e1] w1]; [|done].
  destruct (manager.broadcast _ w1) as [[[]|e2] w2]; [|done].
  apply IH.
Qed.

(** X11.  [connect] is outside the [try]: when it raises, whatever it
    raises, [WebSocketDisconnect] included, the handler ends with that
    exception after that single call; nothing is read from the socket and
    neither [disconnect] nor any broadcast is called. *)
Theorem websocket_events_connect_raises websocket user inbox w (e : exn) :
  (mgr_connect websocket (state w)).1 = Raised e →
  websocket_events websocket user inbox w =
    (Raised e, mkWorld (mgr_connect websocket (state w)).2
                       (calls w ++ [Call_connect websocket])).
Proof.
  intros Hraise. unfold websocket_events, mbind, M_bind, bind.
  unfold manager.connect. by rewrite manager_call_eq, Hraise.
Qed.

Lemma receive_loop_serves websocket user (datas : list string) w :
  (∀ m ws, returns_normally (mgr_send_personal_message m ws)) →
  (∀ m, returns_normally (mgr_broadcast m)) →
  (receive_loop websocket user (Json <$> datas) w).1 = Returned Receiving
  ∧ calls (receive_loop websocket user (Json <$> datas) w).2
      = calls w ++ echo_and_broadcast websocket user datas.
Proof.
  intros Hecho Hsays. revert w.
  induction datas as [|data datas IH]; intros w; simpl.
  - by rewrite app_nil_r.
  - unfold mbind, M_bind, bind.
    unfold manager.send_personal_message, manager.broadcast.
    rewrite manager_call_eq, Hecho. simpl.
    rewrite manager_call_eq, Hsays. simpl.
    split; [apply (proj1 (IH _))|].
    rewrite (proj2 (IH _)). simpl. by rewrite <- !app_assoc.
Qed.

(** X12.  With a manager whose methods return, a session that has received
    the payloads [datas] is suspended in [receive_json], and the calls it
    has made are [connect] followed, for each payload in arrival order, by
    the echo to its own socket and then the broadcast of what its client
    says. *)
Theorem websocket_events_serves_in_order websocket user
    (datas : list string) w :
  (∀ ws, returns_normally (mgr_connect ws)) →
  (∀ m ws, returns_normally (mgr_send_personal_message m ws)) →
  (∀ m, returns_normally (mgr_broadcast m)) →
  (websocket_events websocket user (Json <$> datas) w).1 = Returned Receiving
  ∧ new_calls w (websocket_events websocket user (Json <$> datas) w).2
      = Call_connect websocket :: echo_and_broadcast websocket user datas.
Proof.
  intros Hconnect Hecho Hsays.
  unfold websocket_events, mbind, M_bind, bind, manager.connect.
  rewrite manager_call_eq, Hconnect.
  unfold session, try_except_WebSocketDisconnect.
  destruct (receive_loop_serves websocket user datas
    (mkWorld (mgr_connect websocket (state w)).2
             (calls w ++ [Call_connect websocket])) Hecho Hsays)
    as [Hout Hcalls].
  destruct (receive_loop websocket user (Json <$> datas) _) as [o w'].
  simpl in *. subst o. simpl. split; [done|].
  unfold new_calls. simpl. rewrite Hcalls, <- app_assoc.
  by rewrite drop_app_length.
Qed.

(** X13.  A session that has ended, by returning or by raising, takes no
    further input: whatever the transport would deliver next changes
    neither the outcome nor the calls made. *)
Theorem ended_session_ignores_input websocket user inbox inbox' w :
  (websocket_events websocket user inbox w).1 ≠ Returned Receiving →
  websocket_events websocket user (inbox ++ inbox') w
    = websocket_events websocket user inbox w.
Proof.
  intros Hended. rewrite websocket_events_app.
  by destruct (websocket_events websocket user inbox w) as [[[|]|e] w'].
Qed.

(** X14.  A session suspended in [receive_json] picks up where it stopped:
    serving [inbox] and then, from the world the session is in at that
    point, the [try] statement on [inbox'] is serving [inbox ++ inbox']. *)
Theorem suspended_session_resumes websocket user inbox inbox' w w' :
  websocket_events websocket user inbox w = (Returned Receiving, w') →
  websocket_events websocket user (inbox ++ inbox') w
    = session websocket user inbox' w'.
Proof. intros Hrun. by rewrite websocket_events_app, Hrun. Qed.

(** X15.  A session that returns has deregistered its socket exactly once:
    its calls are [connect], then echoes and broadcasts of what was said,
    then [disconnect] for its own socket and, last and after it, the
    broadcast of the departure notice. *)
Theorem closed_session_deregistered_once websocket user inbox w w' :
  websocket_events websocket user inbox w = (Returned Closed, w') →
  ∃ served,
    new_calls w w' = Call_connect websocket :: served
                       ++ [Call_disconnect websocket;
                           Call_broadcast (client_left user)]
    ∧ Forall (loop_call websocket user) served.
Proof.
  unfold websocket_events, mbind, M_bind, bind, manager.connect.
  rewrite manager_call_eq.
  destruct (mgr_connect websocket (state w)) as [[[]|e] s1]; simpl; [|done].
  unfold session, try_except_WebSocketDisconnect.
  pose proof (receive_loop_not_closed websocket user inbox
    (mkWorld s1 (calls w ++ [Call_connect websocket]))) as Hnot.
  pose proof (receive_loop_calls websocket user inbox
    (mkWorld s1 (calls w ++ [Call_connect websocket])))
    as (served & Hcalls & Hserved).
  destruct (receive_loop websocket user inbox _) as [[[|]|e] w2];
    simpl in *; [done | done |].
  destruct e; try done.
  unfold on_disconnect, mbind, mret, M_bind, M_ret, bind, ret.
  unfold manager.disconnect, manager.broadcast. rewrite manager_call_eq.
  destruct (mgr_disconnect websocket (state w2)) as [[[]|e] s3]; simpl;
    [|done].
  rewrite manager_call_eq. simpl.
  destruct (mgr_broadcast (client_left user) s3) as [[[]|e] s4]; simpl;
    [|done].
  intros [= <-]. exists served. split; [|done].
  unfold new_calls. simpl. rewrite Hcalls, <- !app_assoc.
  by rewrite drop_app_length.
Qed.

(** X16.  When [disconnect] raises in the [except] suite, the exception
    leaves the handler and the departure notice is not broadcast:
    [disconnect] is the last call made. *)
Theorem disconnect_failure_skips_notice websocket user inbox w w2 (e : exn) :
  receive_loop websocket user inbox w = (Raised WebSocketDisconnect, w2) →
  (mgr_disconnect websocket (state w2)).1 = Raised e →
  session websocket user inbox w =
    (Raised e, mkWorld (mgr_disconnect websocket (state w2)).2
                       (calls w2 ++ [Call_disconnect websocket])).
Proof.
  intros Hloop Hraise. unfold session, try_except_WebSocketDisconnect.
  rewrite Hloop. unfold on_disconnect, mbind, M_bind, bind.
  unfold manager.disconnect. by rewrite manager_call_eq, Hraise.
Qed.

(** X17.  [WebSocketDisconnect] raised by the echo is handled like one
    raised by [receive_json]: the payload being handled is not broadcast,
    later payloads are not read, and the session deregisters its socket and
    broadcasts the departure notice. *)
Theorem disconnect_signal_from_echo websocket user (data : string) inbox w :
  (mgr_send_personal_message (you_wrote data) websocket (state w)).1
    = Raised WebSocketDisconnect →
  session websocket user (Json data :: inbox) w =
    on_disconnect websocket user
      (mkWorld (mgr_send_personal_message (you_wrote data) websocket
                                          (state w)).2
               (calls w ++ [Call_send_personal_message (you_wrote data)
                                                       websocket])).
Proof.
  intros Hraise. unfold session, try_except_WebSocketDisconnect. simpl.
  unfold mbind, M_bind, bind, manager.send_personal_message.
  by rewrite manager_call_eq, Hraise.
Qed.
End SessionRuns.

(** ** The session on scripted managers *)

Lemma websocket_events_connect_raises_witness :
  @websocket_events _
    (scripted_manager (λ c, if c is Call_connect _
                            then Some WebSocketDisconnect else None))
    1 (mkUser 1) [Json "hi"] (mkWorld tt [])
  = (Raised WebSocketDisconnect, mkWorld tt [Call_connect 1]).
Proof.
  exact (@websocket_events_connect_raises _
           (scripted_manager (λ c, if c is Call_connect _
                                   then Some WebSocketDisconnect else None))
           1 (mkUser 1) [Json "hi"] (mkWorld tt []) WebSocketDisconnect
           eq_refl).
Defined.

Lemma websocket_events_serves_in_order_witness :
  new_calls (mkWorld tt [])
    (@websocket_events _ (scripted_manager (λ _, None)) 1 (mkUser 5)
       (Json <$> ["hi"; "yo"]) (mkWorld tt [])).2
  = [Call_connect 1;
     Call_send_personal_message "You wrote: hi" 1;
     Call_broadcast "Client #5 says: hi";
     Call_send_personal_message "You wrote: yo" 1;
     Call_broadcast "Client #5 says: yo"].
Proof.
  apply (@websocket_events_serves_in_order _ (scripted_manager (λ _, None))
           1 (mkUser 5) ["hi"; "yo"] (mkWorld tt []));
    intros; intros []; reflexivity.
Defined.

Lemma ended_session_ignores_input_witness :
  @websocket_events _ (scripted_manager (λ _, None)) 1 (mkUser 5)
    ([Raises WebSocketDisconnect] ++ [Json "late"]) (mkWorld tt [])
  = @websocket_events _ (scripted_manager (λ _, None)) 1 (mkUser 5)
      [Raises WebSocketDisconnect] (mkWorld tt []).
Proof.
  apply (@ended_session_ignores_input _ (scripted_manager (λ _, None))).
  discriminate.
Defined.

Lemma suspended_session_resumes_witness :
  @websocket_events _ (scripted_manager (λ _, None)) 1 (mkUser 5)
    ([] ++ [Json "hi"]) (mkWorld tt [])
  = @session _ (scripted_manager (λ _, None)) 1 (mkUser 5) [Json "hi"]
      (mkWorld tt [Call_connect 1]).
Proof.
  apply (@suspended_session_resumes _ (scripted_manager (λ _, None))).
  reflexivity.
Defined.

Lemma closed_session_deregistered_once_witness :
  ∃ served,
    new_calls (mkWorld tt [])
      (@websocket_events _ (scripted_manager (λ _, None)) 1 (mkUser 5)
         [Json "hi"; Raises WebSocketDisconnect] (mkWorld tt [])).2
    = Call_connect 1 :: served
        ++ [Call_disconnect 1; Call_broadcast "Client #5 left the chat"]
    ∧ Forall (loop_call 1 (mkUser 5)) served.
Proof.
  apply (@closed_session_deregistered_once _ (scripted_manager (λ _, None))
           1 (mkUser 5) [Json "hi"; Raises WebSocketDisconnect]
           (mkWorld tt [])).
  reflexivity.
Defined.

(** [disconnect] raising, as a list's [remove] does for a socket that is
    not in it. *)
Lemma disconnect_failure_skips_notice_witness :
  @session _
    (scripted_manager (λ c, if c is Call_disconnect _
                            then Some (OtherException "ValueError")
                            else None))
    1 (mkUser 5) [Raises WebSocketDisconnect] (mkWorld tt [])
  = (Raised (OtherException "ValueError"), mkWorld tt [Call_disconnect 1]).
Proof.
  exact (@disconnect_failure_skips_notice _
           (scripted_manager (λ c, if c is Call_disconnect _
                                   then Some (OtherException "ValueError")
                                   else None))
           1 (mkUser 5) [Raises WebSocketDisconnect] (mkWorld tt [])
           (mkWorld tt []) (OtherException "ValueError") eq_refl eq_refl).
Defined.

Lemma disconnect_signal_from_echo_witness :
  @session _
    (scripted_manager (λ c, if c is Call_send_personal_message _ _
                            then Some WebSocketDisconnect else None))
    1 (mkUser 5) [Json "hi"; Json "yo"] (mkWorld tt [])
  = (Returned Closed,
     mkWorld tt [Call_send_personal_message "You wrote: hi" 1;
                 Call_disconnect 1;
                 Call_broadcast "Client #5 left the chat"]).
Proof.
  rewrite (@disconnect_signal_from_echo _
             (scripted_manager (λ c, if c is Call_send_personal_message _ _
                                     then Some WebSocketDisconnect else None))
             1 (mkUser 5) "hi" [Json "yo"] (mkWorld tt []) eq_refl).
  reflexivity.
Defined.

(** ** The texts of the session *)

Lemma has_space_string_of_uint (d : Decimal.uint) :
  has_space (NilEmpty.string_of_uint d) = false.
Proof. induction d; simpl; done. Qed.

Lemma has_space_str_int (n : Z) : has_space (str_int n) = false.
Proof.
  unfold str_int. destruct n as [|p|p]; simpl; [done| |].
  - destruct (Pos.to_uint p) eqn:Hp; try apply has_space_string_of_uint.
    done.
  - destruct (Pos.to_uint p) eqn:Hp; try apply has_space_string_of_uint.
    done.
Qed.

Lemma str_int_inj (n n' : Z) : str_int n = str_int n' → n = n'.
Proof.
  unfold str_int. intros Heq. apply DecimalZ.to_int_inj.
  assert (Hparse : ∀ z, NilZero.int_of_string
                          (NilZero.string_of_int (Z.to_int z))
                        = Some (Z.to_int z)).
  { intros z. apply NilZero.isi; destruct z as [|p|p]; simpl; try done;
      intros [= Hnil]; by apply (DecimalPos.Unsigned.to_uint_nonnil p). }
  pose proof (Hparse n) as Hn. rewrite Heq, Hparse in Hn. congruence.
Qed.

(** Two texts that agree up to their first blank agree before and after
    it. *)
Lemma split_at_first_space (a b x y : string) :
  has_space a = false → has_space b = false →
  a +:+ String " " x = b +:+ String " " y → a = b ∧ x = y.
Proof.
  revert b. induction a as [|c a IH]; intros [|c' b]; simpl.
  - intros _ _ [= ->]. done.
  - intros _ Hb [= <- _]. done.
  - intros Ha _ [= -> _]. done.
  - intros [Hc Ha]%orb_false_elim [Hc' Hb]%orb_false_elim [= -> Heq].
    destruct (IH b Ha Hb Heq) as [-> ->]. done.
Qed.

(** X18.  The texts of the session can be told apart and read back: what
    a broadcast says determines the sender's id and the payload; a
    departure notice determines who left; an echo determines the payload;
    and no payload, whatever it contains, makes one kind of text equal to
    another kind, for any users. *)
Theorem session_texts_unambiguous (user user' : User) (data data' : string) :
  (client_says user data = client_says user' data' →
     user_id user = user_id user' ∧ data = data')
  ∧ (client_left user = client_left user' → user_id user = user_id user')
  ∧ (you_wrote data = you_wrote data' → data = data')
  ∧ client_says user data ≠ client_left user'
  ∧ you_wrote data ≠ client_says user data'
  ∧ you_wrote data ≠ client_left user.
Proof.
  unfold client_says, client_left, you_wrote. split_and!.
  - intros Heq. apply (append_inv_head "Client #") in Heq.
    apply split_at_first_space in Heq as [Hid Hrest];
      [|apply has_space_str_int..].
    split; [by apply str_int_inj|]. by apply (append_inv_head "says: ").
  - intros Heq. apply (append_inv_head "Client #") in Heq.
    apply split_at_first_space in Heq as [Hid _];
      [|apply has_space_str_int..].
    by apply str_int_inj.
  - apply append_inv_head.
  - intros Heq. apply (append_inv_head "Client #") in Heq.
    by apply split_at_first_space in Heq as [_ Hrest];
      [|apply has_space_str_int..].
  - done.
  - done.
Qed.

Lemma session_texts_unambiguous_witness :
  client_says (mkUser 5) "left the chat" ≠ client_left (mkUser 5)
  ∧ client_says (mkUser 1) "2 says: hi" ≠ client_says (mkUser 12) "hi".
Proof.
  destruct (session_texts_unambiguous (mkUser 5) (mkUser 5)
              "left the chat" EmptyString) as (_ & _ & _ & Hne & _).
  destruct (session_texts_unambiguous (mkUser 1) (mkUser 12)
              "2 says: hi" "hi") as (Hinj & _).
  split; [exact Hne|]. intros Heq. by destruct (Hinj Heq).
Defined.

(** ** A session on the registry, from connect to disconnect *)

Section RegistryRuns.
Variable usable : WebSocket → bool.
Variable prune_broken : bool.
Implicit Types (w : World Registry ManagerCall) (user : User).

Lemma send_to_subseteq c m r :
  active_connections (send_to usable prune_broken c m r).2
    ⊆ active_connections r
  ∧ (prune_broken = false →
       active_connections (send_to usable prune_broken c m r).2
         = active_connections r).
Proof.
  unfold send_to. destruct (usable c), prune_broken; simpl; set_solver.
Qed.

Lemma broadcast_keeps_all m r :
  prune_broken = false →
  active_connections (broadcast usable prune_broken m r)
    = active_connections r.
Proof. intros ->. unfold broadcast. by rewrite active_pass. Qed.

(** The loop never adds to the active set, and leaves it as it is when the
    registry keeps broken connections. *)
Lemma registry_loop_active websocket user (inbox : list Received) w :
  active_connections
    (state (@receive_loop _ (registry_manager usable prune_broken)
              websocket user inbox w).2) ⊆ active_connections (state w)
  ∧ (prune_broken = false →
       active_connections
         (state (@receive_loop _ (registry_manager usable prune_broken)
                   websocket user inbox w).2) = active_connections (state w)).
Proof.
  revert w. induction inbox as [|[data|e] inbox IH]; intros w; [done| |done].
  destruct (IH (mkWorld
      (broadcast usable prune_broken (client_says user data)
         (send_to usable prune_broken websocket (you_wrote data)
                  (state w)).2)
      ((calls w ++ [Call_send_personal_message (you_wrote data) websocket])
         ++ [Call_broadcast (client_says user data)]))) as [IHsub IHeq].
  pose proof (send_to_subseteq websocket (you_wrote data) (state w))
    as [Hsub Heq].
  pose proof (broadcast_subseteq usable prune_broken (client_says user data)
    (send_to usable prune_broken websocket (you_wrote data) (state w)).2)
    as Hsub'.
  split.
  - etrans; [exact IHsub|]. simpl. set_solver.
  - intros Hkeep. etrans; [exact (IHeq Hkeep)|]. simpl.
    rewrite broadcast_keeps_all by done. by apply Heq.
Qed.

Lemma registry_loop_serves websocket user (datas : list string) w :
  (@receive_loop _ (registry_manager usable prune_broken) websocket user
     (Json <$> datas) w).1 = Returned Receiving.
Proof.
  apply (@receive_loop_serves _ (registry_manager usable prune_broken));
    by intros.
Qed.

(** X19.  On the registry, the departure notice never reaches the client
    that left: when a session receives the disconnect signal it returns,
    and what is delivered from then on is the notice, once, to every other
    registered connection whose transport is usable, and nothing else. *)
Theorem departure_notice_spares_leaver websocket user w :
  (@session _ (registry_manager usable prune_broken) websocket user
     [Raises WebSocketDisconnect] w).1 = Returned Closed
  ∧ ∀ c m,
      deliveries c m
        (delivered_since (state w)
           (state (@session _ (registry_manager usable prune_broken)
                     websocket user [Raises WebSocketDisconnect] w).2))
      = if decide (m = client_left user ∧ c ≠ websocket
                   ∧ c ∈ active_connections (state w) ∧ usable c = true)
        then 1 else 0.
Proof.
  split; [done|]. intros c m. simpl.
  unfold delivered_since. rewrite delivered_broadcast. simpl.
  rewrite drop_app_length, deliveries_pass by apply NoDup_elements.
  destruct (decide (m = client_left user ∧ c ≠ websocket
                    ∧ c ∈ active_connections (state w) ∧ usable c = true))
    as [Hd|Hd].
  - rewrite decide_True; [done|]. set_solver.
  - rewrite decide_False; [done|]. set_solver.
Qed.

(** X20.  On the registry, a whole session (connect, any number of
    payloads, then the disconnect signal) returns and leaves its socket out
    of the active set, whether or not the socket was registered before; it
    adds no other connection, and when the registry keeps broken
    connections the active set is exactly the one the session found, minus
    its own socket. *)
Theorem whole_session_leaves_registry websocket user (datas : list string) w :
  let run := @websocket_events _ (registry_manager usable prune_broken)
               websocket user
               ((Json <$> datas) ++ [Raises WebSocketDisconnect]) w in
  run.1 = Returned Closed
  ∧ (websocket ∉ active_connections (state run.2))
  ∧ active_connections (state run.2)
      ⊆ active_connections (state w) ∖ {[websocket]}
  ∧ (prune_broken = false →
       active_connections (state run.2)
         = active_connections (state w) ∖ {[websocket]}).
Proof.
  simpl. unfold websocket_events, mbind, M_bind, bind. simpl.
  unfold session, try_except_WebSocketDisconnect.
  rewrite receive_loop_app.
  set (w1 := mkWorld (register websocket (state w))
                     (calls w ++ [Call_connect websocket])).
  pose proof (registry_loop_serves websocket user datas w1) as Hserved.
  pose proof (registry_loop_active websocket user (Json <$> datas) w1)
    as [Hsub Heq].
  destruct (receive_loop websocket user (Json <$> datas) w1) as [o w2].
  simpl in Hserved. subst o. simpl in *.
  pose proof (broadcast_subseteq usable prune_broken (client_left user)
    (deregister websocket (state w2))) as Hsub'.
  simpl in Hsub'.
  split_and!; [done|set_solver|set_solver|].
  intros Hkeep. rewrite broadcast_keeps_all by done. simpl.
  rewrite (Heq Hkeep). set_solver.
Qed.
End RegistryRuns.

Lemma whole_session_leaves_registry_witness :
  active_connections
    (state (@websocket_events _ (registry_manager (λ _, true) false)
              1 (mkUser 5) ((Json <$> ["hi"]) ++ [Raises WebSocketDisconnect])
              (mkWorld (register 2 empty_registry) [])).2)
  = active_connections (register 2 empty_registry) ∖ {[1]}.
Proof.
  apply (whole_session_leaves_registry (λ _, true) false 1 (mkUser 5) ["hi"]
           (mkWorld (register 2 empty_registry) [])).
  reflexivity.
Defined.
